(** * tools/qwen_image_pipeline.py: the two inference workflows

    The script is glue code over an external machine-learning library: it
    loads a processor and a model for a named checkpoint, renders a literal
    chat message into tensors, generates, decodes the newly generated span
    and prints it (the direct-API workflow); then it builds a high-level
    pipeline callable and calls it on the same literal message (the pipeline
    workflow).  The file holds this pair of workflows twice.

    The embedding keeps the script's own code concrete (the literals, the
    keyword arguments, the subscript and slice expression, the order of the
    statements, the module's global variables, standard output) and takes the
    external library as a parameter: a record of operations acting on a
    library-side state that the script cannot inspect. *)

From stdpp Require Import base option list strings gmap.
From Stdlib Require Import ZArith Lia.

Set Warnings "-register-all".

Open Scope Z_scope.
Open Scope string_scope.
Open Scope list_scope.

(** ** Python values written as literals in the script *)

Module Py.

(** The message list is a list of dicts whose values are strings or lists of
    dicts.  Dict literals keep the order of their items. *)
Inductive pyval : Type :=
  | PNone
  | PStr (s : string)
  | PList (items : list pyval)
  | PDict (items : list (string * pyval)).

(** [d[key]] on a dict literal; the first matching item. *)
Fixpoint assoc (key : string) (items : list (string * pyval)) : option pyval :=
  match items with
  | [] => None
  | (k, v) :: rest => if String.eqb k key then Some v else assoc key rest
  end.

Definition dict_get (key : string) (v : pyval) : option pyval :=
  match v with
  | PDict items => assoc key items
  | _ => None
  end.

(** Exceptions the script's own expressions can raise. *)
Inductive pyexn : Type :=
  | NameError (name : string)
  | KeyError (key : string)
  | IndexError
  | TypeError (why : string).

End Py.
Export Py.

(** ** Tensors

    A tensor is its shape and its elements in row-major order.  Token ids are
    integers. *)

Module Tensors.

Record Tensor : Type := mkTensor { shape : list nat; data : list Z }.

Definition numel (sh : list nat) : nat := foldr Nat.mul 1%nat sh.

Definition well_shaped (t : Tensor) : Prop :=
  length (data t) = numel (shape t).

(** [t.shape[-1]]: the size of the last dimension; a 0-dim tensor has the
    empty shape, whose subscript -1 is out of range. *)
Definition shape_last (t : Tensor) : pyexn + nat :=
  match last (shape t) with
  | Some n => inr n
  | None => inl IndexError
  end.

(** [t[i]] for a non-negative integer [i]: selects along the first
    dimension. *)
Definition index (t : Tensor) (i : nat) : pyexn + Tensor :=
  match shape t with
  | [] => inl IndexError
  | d :: rest =>
      if (i <? d)%nat
      then inr (mkTensor rest (take (numel rest) (drop (i * numel rest) (data t))))
      else inl IndexError
  end.

(** [t[n:]] for a non-negative integer [n]: the slice along the first
    dimension that starts at [n]; a start beyond the end is clamped, which
    gives the empty slice. *)
Definition slice_from (t : Tensor) (n : nat) : pyexn + Tensor :=
  match shape t with
  | [] => inl IndexError
  | d :: rest =>
      inr (mkTensor ((d - n)%nat :: rest)
                    (drop (Nat.min n d * numel rest) (data t)))
  end.

End Tensors.
Export Tensors.

(** ** Subscripts and keyword arguments on the batch of inputs *)

(** [batch[key]] *)
Definition getitem (batch : gmap string Tensor) (key : string) : pyexn + Tensor :=
  match batch !! key with
  | Some t => inr t
  | None => inl (KeyError key)
  end.

(** ** The expression [outputs[0][inputs["input_ids"].shape[-1]:]]

    Python evaluates the subscripted object [outputs[0]] first, then the
    slice bound [inputs["input_ids"].shape[-1]], then takes the slice. *)
Definition generated_span (outputs : Tensor) (inputs : gmap string Tensor)
  : pyexn + Tensor :=
  match index outputs 0 with
  | inl e => inl e
  | inr row =>
      match getitem inputs "input_ids" with
      | inl e => inl e
      | inr ids =>
          match shape_last ids with
          | inl e => inl e
          | inr n => slice_from row n
          end
      end
  end.

(** ** The external library

    Everything the script imports from [transformers].  An operation takes
    the library-side state (weights cache, devices, random generator, the
    model hub as seen over the network) and either raises one of the
    library's exceptions or returns a value, with the state it leaves. *)

Definition LibCall (W E A : Type) : Type := W → (E + A) * W.

(** The keyword arguments of
    [apply_chat_template(messages, add_generation_prompt=True, tokenize=True,
    return_dict=True, return_tensors="pt")]. *)
Record TemplateOptions : Type := mkTemplateOptions {
  add_generation_prompt : bool;
  tokenize : bool;
  return_dict : bool;
  return_tensors : string
}.

(** A keyword argument of [generate]: a tensor of the unpacked [inputs] or
    an integer. *)
Inductive kwarg : Type :=
  | KTensor (t : Tensor)
  | KInt (n : Z).

(** The keyword arguments of a call [f( **batch, name=value)]: the unpacked
    batch and the one named argument.  A name given twice is a [TypeError]. *)
Definition keywords (batch : gmap string Tensor) (name : string) (value : kwarg)
  : pyexn + gmap string kwarg :=
  match batch !! name with
  | Some _ => inl (TypeError "got multiple values for keyword argument")
  | None => inr (<[name := value]> (KTensor <$> batch))
  end.

Record Library : Type := mkLibrary {
  World : Type;
  LibExn : Type;
  Processor : Type;
  Model : Type;
  Device : Type;
  Pipeline : Type;
  (** [from module import names] *)
  import_from : string → list string → LibCall World LibExn unit;
  AutoProcessor_from_pretrained : string → LibCall World LibExn Processor;
  AutoModelForVision2Seq_from_pretrained : string → LibCall World LibExn Model;
  (** [processor.apply_chat_template(messages, ...)]; the returned batch maps
      names to tensors *)
  apply_chat_template :
    Processor → pyval → TemplateOptions → LibCall World LibExn (gmap string Tensor);
  (** [model.device] *)
  device : Model → LibCall World LibExn Device;
  (** [batch.to(device)] *)
  to : gmap string Tensor → Device → LibCall World LibExn (gmap string Tensor);
  (** [model.generate] called with keyword arguments only *)
  generate : Model → gmap string kwarg → LibCall World LibExn Tensor;
  (** [processor.decode(tokens)] *)
  decode : Processor → Tensor → LibCall World LibExn string;
  (** [pipeline(task, model=checkpoint)] *)
  pipeline : string → string → LibCall World LibExn Pipeline;
  (** [pipe(text=messages)] *)
  pipe_call : Pipeline → pyval → LibCall World LibExn pyval;
  (** [repr(value)] of a value the library returned *)
  repr : pyval → string
}.

(** ** The interpreter state and the statement monad *)

(** How the file is executed.  Run as a file ([python file.py]) an expression
    statement evaluates its expression and drops the value.  In interactive
    mode the value, unless it is [None], goes through the display hook, which
    writes its [repr] on a line of standard output. *)
Inductive Mode : Type := RunFile | Interactive.

Section Interpreter.

Variable L : Library.

(** The module's global variables that the script binds.  ([None] is an
    unbound name.)  The names bound by the two [import] statements are the
    library's operations themselves and are not tracked. *)
Record Globals : Type := mkGlobals {
  g_processor : option (Processor L);
  g_model : option (Model L);
  g_messages : option pyval;
  g_inputs : option (gmap string Tensor);
  g_outputs : option Tensor;
  g_pipe : option (Pipeline L)
}.

Definition no_globals : Globals := mkGlobals None None None None None None.

(** What the interpreter did, in order: a call into the library, with the
    name of the operation and the exception it raised, if any; or a line
    written to standard output.  The log is ghost state; no statement reads
    it. *)
Inductive Event : Type :=
  | Called (name : string) (raised : option (LibExn L))
  | Wrote (text : string).

Record State : Type := mkState {
  world : World L;
  globals : Globals;
  (** the texts written to standard output, one per line, oldest first *)
  stdout : list string;
  trace : list Event
}.

Inductive exn : Type :=
  | PyError (e : pyexn)
  | LibError (e : LibExn L).

Definition M (A : Type) : Type := State → (exn + A) * State.

Definition ret {A} (a : A) : M A := λ s, (inr a, s).

Definition bind {A B} (m : M A) (k : A → M B) : M B :=
  λ s, match m s with
       | (inl e, s') => (inl e, s')
       | (inr a, s') => k a s'
       end.

Definition raise {A} (e : exn) : M A := λ s, (inl e, s).

(** A handler, as a [try: ... except: ...] statement would need it.  The
    script has none. *)
Definition try_except {A} (m : M A) (h : exn → M A) : M A :=
  λ s, match m s with
       | (inl e, s') => h e s'
       | (inr a, s') => (inr a, s')
       end.

(** An expression of the script itself, which may raise. *)
Definition eval {A} (r : pyexn + A) : M A :=
  match r with
  | inl e => raise (PyError e)
  | inr a => ret a
  end.

(** A call into the library. *)
Definition call {A} (name : string) (c : LibCall (World L) (LibExn L) A) : M A :=
  λ s, match c (world s) with
       | (inl e, w) =>
           (inl (LibError e),
            mkState w (globals s) (stdout s) (trace s ++ [Called name (Some e)]))
       | (inr a, w) =>
           (inr a,
            mkState w (globals s) (stdout s) (trace s ++ [Called name None]))
       end.

(** Reading a global name. *)
Definition load {A} (name : string) (field : Globals → option A) : M A :=
  λ s, match field (globals s) with
       | Some a => (inr a, s)
       | None => (inl (PyError (NameError name)), s)
       end.

(** Binding a global name. *)
Definition store (upd : Globals → Globals) : M unit :=
  λ s, (inr (), mkState (world s) (upd (globals s)) (stdout s) (trace s)).

Definition set_processor (v : Processor L) (g : Globals) : Globals :=
  mkGlobals (Some v) (g_model g) (g_messages g) (g_inputs g) (g_outputs g) (g_pipe g).
Definition set_model (v : Model L) (g : Globals) : Globals :=
  mkGlobals (g_processor g) (Some v) (g_messages g) (g_inputs g) (g_outputs g) (g_pipe g).
Definition set_messages (v : pyval) (g : Globals) : Globals :=
  mkGlobals (g_processor g) (g_model g) (Some v) (g_inputs g) (g_outputs g) (g_pipe g).
Definition set_inputs (v : gmap string Tensor) (g : Globals) : Globals :=
  mkGlobals (g_processor g) (g_model g) (g_messages g) (Some v) (g_outputs g) (g_pipe g).
Definition set_outputs (v : Tensor) (g : Globals) : Globals :=
  mkGlobals (g_processor g) (g_model g) (g_messages g) (g_inputs g) (Some v) (g_pipe g).
Definition set_pipe (v : Pipeline L) (g : Globals) : Globals :=
  mkGlobals (g_processor g) (g_model g) (g_messages g) (g_inputs g) (g_outputs g) (Some v).

(** [sys.stdout.write] of one line. *)
Definition write_line (text : string) : M unit :=
  λ s, (inr (),
        mkState (world s) (globals s) (stdout s ++ [text]) (trace s ++ [Wrote text])).

(** The builtin [print(text)]: writes the text and a newline, returns
    [None]. *)
Definition print (text : string) : M pyval :=
  bind (write_line text) (λ _, ret PNone).

(** An expression statement. *)
Definition expr_stmt (mode : Mode) (e : M pyval) : M unit :=
  bind e (λ v,
    match mode with
    | RunFile => ret ()
    | Interactive =>
        match v with
        | PNone => ret ()
        | _ => write_line (repr L v)
        end
    end).

End Interpreter.

Arguments ret {L A} a.
Arguments bind {L A B} m k.
Arguments raise {L A} e.
Arguments try_except {L A} m h.
Arguments eval {L A} r.
Arguments call {L A} name c.
Arguments load {L A} name field.
Arguments store {L} upd.
Arguments write_line {L} text.
Arguments print {L} text.
Arguments expr_stmt {L} mode e.
Arguments PyError {L} e.
Arguments LibError {L} e.
Arguments world {L} s.
Arguments globals {L} s.
Arguments stdout {L} s.
Arguments trace {L} s.
Arguments mkState {L} world globals stdout trace.
Arguments Called {L} name raised.
Arguments Wrote {L} text.
Arguments g_processor {L} g.
Arguments g_model {L} g.
Arguments g_messages {L} g.
Arguments g_inputs {L} g.
Arguments g_outputs {L} g.
Arguments g_pipe {L} g.
Arguments mkGlobals {L}.
Arguments no_globals {L}.
Arguments set_processor {L} v g.
Arguments set_model {L} v g.
Arguments set_messages {L} v g.
Arguments set_inputs {L} v g.
Arguments set_outputs {L} v g.
Arguments set_pipe {L} v g.

(** Statements are sequenced with stdpp's [x ← m; k] and [m;; k]. *)
#[global] Instance M_ret {L} : MRet (M L) := λ A, @ret L A.
#[global] Instance M_bind {L} : MBind (M L) := λ A B k m, @bind L A B m k.

(** ** The script

    The file is one run of statements.  A comment heads each of its four
    parts: "Load model directly" (lines 1-24), "Use a pipeline as a
    high-level helper" (lines 24-37), and the same two once more (lines
    37-60 and 60-73).  The statements of the first two parts are named one by
    one; the last two parts are translated as they stand. *)

Section Script.

Variable L : Library.

(** *** Lines 1-24: the direct-API workflow *)

(** Line 2: [from transformers import AutoProcessor, AutoModelForVision2Seq] *)
Definition import_auto : M L unit :=
  call "import"
    (import_from L "transformers" ["AutoProcessor"; "AutoModelForVision2Seq"]).

(** Line 4: [processor = AutoProcessor.from_pretrained(...)] *)
Definition load_processor : M L unit :=
  p ← call "AutoProcessor.from_pretrained"
        (AutoProcessor_from_pretrained L "Qwen/Qwen3-VL-8B-Instruct");
  store (set_processor p).

(** Line 5: [model = AutoModelForVision2Seq.from_pretrained(...)] *)
Definition load_model : M L unit :=
  m ← call "AutoModelForVision2Seq.from_pretrained"
        (AutoModelForVision2Seq_from_pretrained L "Qwen/Qwen3-VL-8B-Instruct");
  store (set_model m).

(** Lines 6-14: [messages = [...]] *)
Definition build_messages : M L unit :=
  store (set_messages
    (PList
      [PDict [("role", PStr "user");
              ("content", PList [
                 PDict [("type", PStr "image");
                        ("url", PStr "https://huggingface.co/datasets/huggingface/documentation-images/resolve/main/p-blog/candy.JPG")];
                 PDict [("type", PStr "text");
                        ("text", PStr "What animal is on the candy?")]])]])).

(** Lines 15-21: [inputs = processor.apply_chat_template(...).to(model.device)];
    the argument [model.device] is evaluated after the template call has
    returned. *)
Definition render_inputs : M L unit :=
  p ← load "processor" g_processor;
  msgs ← load "messages" g_messages;
  batch ← call "processor.apply_chat_template"
            (apply_chat_template L p msgs (mkTemplateOptions true true true "pt"));
  m ← load "model" g_model;
  d ← call "model.device" (device L m);
  moved ← call "to" (to L batch d);
  store (set_inputs moved).

(** Line 23: [outputs = model.generate( **inputs, max_new_tokens=40)] *)
Definition run_generate : M L unit :=
  m ← load "model" g_model;
  inputs ← load "inputs" g_inputs;
  kwargs ← eval (keywords inputs "max_new_tokens" (KInt 40));
  out ← call "model.generate" (generate L m kwargs);
  store (set_outputs out).

(** Line 24, the argument of [print]:
    [processor.decode(outputs[0][inputs["input_ids"].shape[-1]:])] *)
Definition decoded_answer : M L string :=
  p ← load "processor" g_processor;
  outputs ← load "outputs" g_outputs;
  row ← eval (index outputs 0);
  inputs ← load "inputs" g_inputs;
  ids ← eval (getitem inputs "input_ids");
  n ← eval (shape_last ids);
  span ← eval (slice_from row n);
  call "processor.decode" (decode L p span).

(** Line 24: [print(...)], an expression statement. *)
Definition print_answer (mode : Mode) : M L unit :=
  expr_stmt mode (text ← decoded_answer; print text).

Definition direct_api (mode : Mode) : M L unit :=
  import_auto;;
  load_processor;;
  load_model;;
  build_messages;;
  render_inputs;;
  run_generate;;
  print_answer mode.

(** *** Lines 24-37: the pipeline workflow *)

(** Line 25: [from transformers import pipeline] *)
Definition import_pipeline : M L unit :=
  call "import" (import_from L "transformers" ["pipeline"]).

(** Line 27: [pipe = pipeline("image-text-to-text", model=...)] *)
Definition make_pipe : M L unit :=
  pp ← call "pipeline"
         (pipeline L "image-text-to-text" "Qwen/Qwen3-VL-8B-Instruct");
  store (set_pipe pp).

(** Lines 28-36: [messages = [...]] *)
Definition build_messages_for_pipe : M L unit :=
  store (set_messages
    (PList
      [PDict [("role", PStr "user");
              ("content", PList [
                 PDict [("type", PStr "image");
                        ("url", PStr "https://huggingface.co/datasets/huggingface/documentation-images/resolve/main/p-blog/candy.JPG")];
                 PDict [("type", PStr "text");
                        ("text", PStr "What animal is on the candy?")]])]])).

(** Line 37, the expression [pipe(text=messages)] *)
Definition pipe_answer : M L pyval :=
  pp ← load "pipe" g_pipe;
  msgs ← load "messages" g_messages;
  call "pipe" (pipe_call L pp msgs).

(** Line 37: the expression statement. *)
Definition show_pipe_answer (mode : Mode) : M L unit :=
  expr_stmt mode pipe_answer.

Definition pipeline_helper (mode : Mode) : M L unit :=
  import_pipeline;;
  make_pipe;;
  build_messages_for_pipe;;
  show_pipe_answer mode.

(** *** Lines 37-60: the direct-API workflow, second time *)

Definition direct_api_again (mode : Mode) : M L unit :=
  call "import"
    (import_from L "transformers" ["AutoProcessor"; "AutoModelForVision2Seq"]);;
  (p ← call "AutoProcessor.from_pretrained"
         (AutoProcessor_from_pretrained L "Qwen/Qwen3-VL-8B-Instruct");
   store (set_processor p));;
  (m ← call "AutoModelForVision2Seq.from_pretrained"
         (AutoModelForVision2Seq_from_pretrained L "Qwen/Qwen3-VL-8B-Instruct");
   store (set_model m));;
  store (set_messages
    (PList
      [PDict [("role", PStr "user");
              ("content", PList [
                 PDict [("type", PStr "image");
                        ("url", PStr "https://huggingface.co/datasets/huggingface/documentation-images/resolve/main/p-blog/candy.JPG")];
                 PDict [("type", PStr "text");
                        ("text", PStr "What animal is on the candy?")]])]]));;
  (p ← load "processor" g_processor;
   msgs ← load "messages" g_messages;
   batch ← call "processor.apply_chat_template"
             (apply_chat_template L p msgs (mkTemplateOptions true true true "pt"));
   m ← load "model" g_model;
   d ← call "model.device" (device L m);
   moved ← call "to" (to L batch d);
   store (set_inputs moved));;
  (m ← load "model" g_model;
   inputs ← load "inputs" g_inputs;
   kwargs ← eval (keywords inputs "max_new_tokens" (KInt 40));
   out ← call "model.generate" (generate L m kwargs);
   store (set_outputs out));;
  expr_stmt mode
    (text ← (p ← load "processor" g_processor;
             outputs ← load "outputs" g_outputs;
             row ← eval (index outputs 0);
             inputs ← load "inputs" g_inputs;
             ids ← eval (getitem inputs "input_ids");
             n ← eval (shape_last ids);
             span ← eval (slice_from row n);
             call "processor.decode" (decode L p span));
     print text).

(** *** Lines 60-73: the pipeline workflow, second time *)

Definition pipeline_helper_again (mode : Mode) : M L unit :=
  call "import" (import_from L "transformers" ["pipeline"]);;
  (pp ← call "pipeline"
          (pipeline L "image-text-to-text" "Qwen/Qwen3-VL-8B-Instruct");
   store (set_pipe pp));;
  store (set_messages
    (PList
      [PDict [("role", PStr "user");
              ("content", PList [
                 PDict [("type", PStr "image");
                        ("url", PStr "https://huggingface.co/datasets/huggingface/documentation-images/resolve/main/p-blog/candy.JPG")];
                 PDict [("type", PStr "text");
                        ("text", PStr "What animal is on the candy?")]])]]));;
  expr_stmt mode
    (pp ← load "pipe" g_pipe;
     msgs ← load "messages" g_messages;
     call "pipe" (pipe_call L pp msgs)).

(** *** The whole file *)

Definition script (mode : Mode) : M L unit :=
  direct_api mode;;
  pipeline_helper mode;;
  direct_api_again mode;;
  pipeline_helper_again mode.

(** A fresh interpreter: no global bound, nothing written, no call made. *)
Definition fresh (w : World L) : State L := mkState w no_globals [] [].

End Script.

Arguments fresh {L} w.

(** ** The shape of a message list *)

Inductive PartKind : Type := ImagePart | TextPart.

(** A content part is an image reference, with a URL string, or a text
    fragment, with a string. *)
Definition part_kind (part : pyval) : option PartKind :=
  match dict_get "type" part with
  | Some (PStr kind) =>
      if String.eqb kind "image" then
        match dict_get "url" part with
        | Some (PStr _) => Some ImagePart
        | _ => None
        end
      else if String.eqb kind "text" then
        match dict_get "text" part with
        | Some (PStr _) => Some TextPart
        | _ => None
        end
      else None
  | _ => None
  end.

(** The kinds of the parts of a message list that is one turn of role
    "user"; [None] for any other value. *)
Definition user_turn_kinds (messages : pyval) : option (list PartKind) :=
  match messages with
  | PList [turn] =>
      match dict_get "role" turn, dict_get "content" turn with
      | Some (PStr role), Some (PList parts) =>
          if String.eqb role "user" then mapM part_kind parts else None
      | _, _ => None
      end
  | _ => None
  end.

(** The messages global is unbound or bound to one user turn of an image
    part followed by a text part. *)
Definition messages_in_shape {L} (s : State L) : Prop :=
  ∀ v, g_messages (globals s) = Some v →
       user_turn_kinds v = Some [ImagePart; TextPart].

(** ** What an expression statement leaves behind

    Once its expression has returned [v]: a line of output in interactive
    mode when [v] is not [None], nothing otherwise. *)
Definition displayed {L} (mode : Mode) (v : pyval) (s : State L) : State L :=
  match mode, v with
  | RunFile, _ => s
  | Interactive, PNone => s
  | Interactive, _ =>
      mkState (world s) (globals s)
              (stdout s ++ [repr L v]) (trace s ++ [Wrote (repr L v)])
  end.

(** ** Contracts of the library *)


(** [decode] turns no token into no text. *)
Definition decodes_nothing_to_nothing (L : Library) : Prop :=
  ∀ p tokens w text w',
    decode L p tokens w = (inr text, w') → data tokens = [] → text = "".



(** The outcome of every operation (the value it returns or the exception
    it raises) is a function of its arguments alone, whatever the state of
    the library: no sampling, no dependence on what the hub serves. *)
Record deterministic (L : Library) : Prop := mkDeterministic {
  det_import : ∀ m names w1 w2,
    (import_from L m names w1).1 = (import_from L m names w2).1;
  det_processor : ∀ name w1 w2,
    (AutoProcessor_from_pretrained L name w1).1 =
    (AutoProcessor_from_pretrained L name w2).1;
  det_model : ∀ name w1 w2,
    (AutoModelForVision2Seq_from_pretrained L name w1).1 =
    (AutoModelForVision2Seq_from_pretrained L name w2).1;
  det_template : ∀ p msgs opts w1 w2,
    (apply_chat_template L p msgs opts w1).1 =
    (apply_chat_template L p msgs opts w2).1;
  det_device : ∀ m w1 w2, (device L m w1).1 = (device L m w2).1;
  det_to : ∀ batch d w1 w2, (to L batch d w1).1 = (to L batch d w2).1;
  det_generate : ∀ m kwargs w1 w2,
    (generate L m kwargs w1).1 = (generate L m kwargs w2).1;
  det_decode : ∀ p tokens w1 w2,
    (decode L p tokens w1).1 = (decode L p tokens w2).1;
  det_pipeline : ∀ task name w1 w2,
    (pipeline L task name w1).1 = (pipeline L task name w2).1;
  det_pipe_call : ∀ pp msgs w1 w2,
    (pipe_call L pp msgs w1).1 = (pipe_call L pp msgs w2).1
}.

(** ** A reference library to run the script on

    A small library with the interface above, used to evaluate the script on
    concrete inputs.  Its state is a counter, the position of its random
    generator; [answer] gives the tokens the model is about to produce at a
    given position.  [generate] stops at [max_new_tokens]; the pipeline
    callable is not given a bound by the script and returns the whole
    answer.  When the hub is not reachable, loading a checkpoint raises. *)

Module Reference.

Definition vocabulary (token : Z) : string :=
  match token with
  | 0 => "cat"
  | 1 => "dog"
  | 2 => "owl"
  | 7 => "A"
  | 8 => " bear"
  | _ => "?"
  end.

Definition detokenize (tokens : list Z) : string :=
  foldr (λ token text, vocabulary token +:+ text) "" tokens.

Definition prompt : gmap string Tensor :=
  <["input_ids" := mkTensor [1; 3]%nat [101; 102; 103]]>
    (<["attention_mask" := mkTensor [1; 3]%nat [1; 1; 1]]> ∅).

(** Generation takes one row of prompt tokens and appends to it the tokens
    of the answer, at most [max_new_tokens] of them; it moves the generator
    on. *)
Definition sample (answer : nat → list Z) (kwargs : gmap string kwarg)
  : LibCall nat string Tensor :=
  λ w,
    match kwargs !! "input_ids", kwargs !! "max_new_tokens" with
    | Some (KTensor (mkTensor [1%nat; n] tokens)), Some (KInt cap) =>
        if decide (length tokens = n) then
          let new := take (Z.to_nat cap) (answer w) in
          (inr (mkTensor [1; n + length new]%nat (tokens ++ new)), S w)
        else (inl "ValueError", w)
    | _, _ => (inl "ValueError", w)
    end.

Fixpoint show (v : pyval) : string :=
  match v with
  | PNone => "None"
  | PStr s => "'" +:+ s +:+ "'"
  | PList items => "[" +:+ String.concat ", " (map show items) +:+ "]"
  | PDict items =>
      "{" +:+ String.concat ", "
                (map (λ kv, "'" +:+ fst kv +:+ "': " +:+ show (snd kv)) items)
          +:+ "}"
  end.

Definition fetch (reachable : bool) : LibCall nat string unit :=
  λ w, if reachable then (inr (), w) else (inl "OSError", w).

Definition library (reachable : bool) (answer : nat → list Z) : Library := {|
  World := nat;
  LibExn := string;
  Processor := unit;
  Model := unit;
  Device := unit;
  Pipeline := unit;
  import_from := λ _ _ w, (inr (), w);
  AutoProcessor_from_pretrained := λ _, fetch reachable;
  AutoModelForVision2Seq_from_pretrained := λ _, fetch reachable;
  apply_chat_template := λ _ _ _ w, (inr prompt, w);
  device := λ _ w, (inr (), w);
  to := λ batch _ w, (inr batch, w);
  generate := λ _, sample answer;
  decode := λ _ tokens w, (inr (detokenize (data tokens)), w);
  pipeline := λ _ _, fetch reachable;
  pipe_call := λ _ _ w, (inr (PStr (detokenize (answer w))), S w);
  repr := show
|}.

(** The model answers "A bear", whatever the position of the generator. *)
Definition steady : Library := library true (λ _, [7; 8]).


(** The model samples: its answer follows the position of the generator. *)
Definition sampling : Library := library true (λ w, [Z.of_nat w]).


(** The hub cannot be reached. *)
Definition offline : Library := library false (λ _, [7; 8]).

End Reference.

(** ** Properties of statements, stated for every outcome *)

(** The four parts of the file. *)
Definition workflows (L : Library) (mode : Mode) : list (M L unit) :=
  [direct_api L mode; pipeline_helper L mode;
   direct_api_again L mode; pipeline_helper_again L mode].


(** A statement keeps a property of the state, however it ends. *)
Definition preserves {L A} (P : State L → Prop) (m : M L A) : Prop :=
  ∀ s, P s → P (m s).2.

(** A library call that raised. *)
Definition failed_call {L} (ev : Event L) : Prop :=
  ∃ name e, ev = Called name (Some e).

(** The events [new] of a run with outcome [r] show no handled failure: a
    library call that raised is the last event, and the exception it raised
    is the outcome. *)
Definition unhandled {L A} (r : exn L + A) (new : list (Event L)) : Prop :=
  match r with
  | inl (LibError e) =>
      ∃ before name,
        new = before ++ [Called name (Some e)] ∧
        Forall (λ ev, ¬ failed_call ev) before
  | _ => Forall (λ ev, ¬ failed_call ev) new
  end.

Definition propagates {L A} (m : M L A) : Prop :=
  ∀ s, ∃ new, trace (m s).2 = trace s ++ new ∧ unhandled (m s).1 new.

(** Two runs of a statement from states with the same globals end alike:
    the same outcome, the same globals, the same lines written. *)
Definition lockstep {L A} (m : M L A) : Prop :=
  ∀ s1 s2, globals s1 = globals s2 →
    ∃ out,
      (m s1).1 = (m s2).1 ∧
      globals (m s1).2 = globals (m s2).2 ∧
      stdout (m s1).2 = stdout s1 ++ out ∧
      stdout (m s2).2 = stdout s2 ++ out.









(** ** Names that are bound, and output that is written once *)



(** A statement writes nothing, however it ends. *)
Definition quiet {L A} (m : M L A) : Prop :=
  ∀ s, stdout (m s).2 = stdout s.



(** * Properties *)

(** ** Tensors: subscript and slice *)

Section TensorFacts.

Lemma numel_row (len : nat) : numel [len] = len.
Proof. unfold numel. simpl. lia. Qed.

(** [t[i]] has the shape of [t] without its first dimension, and no more
    elements than that shape holds. *)
Lemma index_inr (t : Tensor) (i : nat) (row : Tensor) :
  index t i = inr row →
  ∃ d, shape t = d :: shape row ∧ (i < d)%nat ∧
       data row = take (numel (shape row)) (drop (i * numel (shape row)) (data t)) ∧
       (length (data row) ≤ numel (shape row))%nat.
Proof.
  unfold index. destruct (shape t) as [|d rest] eqn:Hs; [discriminate|].
  destruct (i <? d)%nat eqn:Hi; [|discriminate].
  intros [= <-]. simpl. exists d. apply Nat.ltb_lt in Hi.
  repeat split; [done|]. rewrite length_take. lia.
Qed.

(** A subscript in range never fails. *)
Lemma index_in_range (t : Tensor) (i d : nat) (rest : list nat) :
  shape t = d :: rest → (i < d)%nat →
  index t i = inr (mkTensor rest (take (numel rest) (drop (i * numel rest) (data t)))).
Proof.
  intros Hs Hi. unfold index. rewrite Hs.
  apply Nat.ltb_lt in Hi. by rewrite Hi.
Qed.

(** [row[n:]] on a row of tokens: the tokens from position [n] on. *)
Lemma slice_from_row (row : Tensor) (n len : nat) (span : Tensor) :
  shape row = [len] → (length (data row) ≤ len)%nat →
  slice_from row n = inr span →
  shape span = [(len - n)%nat] ∧ data span = drop n (data row).
Proof.
  intros Hs Hlen. unfold slice_from. rewrite Hs. intros [= <-]. cbn [shape data].
  split; [done|]. change (numel []) with 1%nat. rewrite Nat.mul_1_r.
  destruct (decide (n ≤ len)%nat) as [Hn|Hn].
  - by rewrite Nat.min_l.
  - rewrite Nat.min_r by lia. rewrite !drop_ge; [done|lia|lia].
Qed.

(** The slice keeps exactly the positions from [n] on. *)
Lemma drop_positions (n : nat) (tokens : list Z) :
  tokens = take n tokens ++ drop n tokens ∧
  ∀ i, drop n tokens !! i = tokens !! (n + i)%nat.
Proof. split; [by rewrite take_drop|]. intros i. apply lookup_drop. Qed.

End TensorFacts.

(** ** Runs that return: inversion, statement by statement *)

Section Runs.

Context {L : Library}.

Lemma run_bind {A B} (m : M L A) (k : A → M L B) s :
  (m ≫= k) s =
  match m s with
  | (inl e, s') => (inl e, s')
  | (inr a, s') => k a s'
  end.
Proof. reflexivity. Qed.

Lemma bind_returns {A B} (m : M L A) (k : A → M L B) s b s' :
  (m ≫= k) s = (inr b, s') →
  ∃ a s1, m s = (inr a, s1) ∧ k a s1 = (inr b, s').
Proof.
  rewrite run_bind. destruct (m s) as [[e|a] s1]; [discriminate|]. eauto.
Qed.

Lemma call_returns {A} name (c : LibCall (World L) (LibExn L) A) s a s' :
  call name c s = (inr a, s') →
  ∃ w, c (world s) = (inr a, w) ∧
       s' = mkState w (globals s) (stdout s) (trace s ++ [Called name None]).
Proof.
  unfold call. destruct (c (world s)) as [[e|a1] w]; [discriminate|].
  intros [= -> <-]. eauto.
Qed.

Lemma load_returns {A} name (field : Globals L → option A) s a s' :
  load name field s = (inr a, s') → field (globals s) = Some a ∧ s' = s.
Proof.
  unfold load. destruct (field (globals s)); [|discriminate].
  by intros [= -> <-].
Qed.

Lemma store_returns upd (s : State L) u s' :
  store upd s = (inr u, s') →
  s' = mkState (world s) (upd (globals s)) (stdout s) (trace s).
Proof. by intros [= _ <-]. Qed.

Lemma eval_returns {A} (r : pyexn + A) (s : State L) a s' :
  eval r s = (inr a, s') → r = inr a ∧ s' = s.
Proof. destruct r; [discriminate|]. by intros [= -> <-]. Qed.

Lemma print_returns text (s : State L) v s' :
  print text s = (inr v, s') →
  v = PNone ∧
  s' = mkState (world s) (globals s)
               (stdout s ++ [text]) (trace s ++ [Wrote text]).
Proof. by intros [= <- <-]. Qed.

Lemma expr_stmt_returns mode (e : M L pyval) s u s' :
  expr_stmt mode e s = (inr u, s') →
  ∃ v s1, e s = (inr v, s1) ∧ s' = displayed mode v s1.
Proof.
  unfold expr_stmt, bind. destruct (e s) as [[x|v] s1]; [discriminate|].
  intros H. exists v, s1. split; [done|].
  destruct mode, v; by injection H as <-.
Qed.

(** A run whose outcome is known, as a pair. *)
Lemma returns_as_pair {A} (m : M L A) s r :
  (m s).1 = r → m s = (r, (m s).2).
Proof. intros <-. apply surjective_pairing. Qed.

End Runs.

(** Keeps the states in a run small. *)
Ltac simpl_state :=
  cbn [world globals stdout trace
       g_processor g_model g_messages g_inputs g_outputs g_pipe
       set_processor set_model set_messages set_inputs set_outputs set_pipe
       displayed] in *.

(** Inverts a run that returned. *)
Ltac invert_run :=
  repeat (match goal with
  | H : (_ ≫= _) _ = (inr _, _) |- _ =>
      apply bind_returns in H; destruct H as (? & ? & ? & H)
  | H : call _ _ _ = (inr _, _) |- _ =>
      apply call_returns in H; destruct H as (? & H & ->)
  | H : load _ _ _ = (inr _, _) |- _ =>
      apply load_returns in H; destruct H as (H & ->)
  | H : store _ _ = (inr _, _) |- _ =>
      apply store_returns in H; subst
  | H : eval _ _ = (inr _, _) |- _ =>
      apply eval_returns in H; destruct H as (H & ->)
  | H : print _ _ = (inr _, _) |- _ =>
      apply print_returns in H; destruct H as (-> & ->)
  | H : expr_stmt _ _ _ = (inr _, _) |- _ =>
      apply expr_stmt_returns in H; destruct H as (? & ? & ? & H)
  | H : Some _ = Some _ |- _ => injection H as H; subst
  end; simpl_state).

Ltac unfold_direct_api :=
  unfold direct_api, import_auto, load_processor, load_model, build_messages,
    render_inputs, run_generate, print_answer, decoded_answer in *.

Ltac unfold_pipeline_helper :=
  unfold pipeline_helper, import_pipeline, make_pipe, build_messages_for_pipe,
    show_pipe_answer, pipe_answer in *.

(** ** The direct-API workflow, when it returns *)

Section DirectApi.

Context {L : Library}.

(** Everything a returning run of the direct-API workflow went through: the
    keyword arguments given to [generate], what it returned, the subscript
    and the slice, the text [decode] returned, and the state at the end. *)
Lemma direct_api_returns mode (s s' : State L) :
  direct_api L mode s = (inr (), s') →
  ∃ p m inputs kwargs outputs row ids n span text w0 w1 w2,
    keywords inputs "max_new_tokens" (KInt 40) = inr kwargs ∧
    generate L m kwargs w0 = (inr outputs, w1) ∧
    index outputs 0 = inr row ∧
    getitem inputs "input_ids" = inr ids ∧
    shape_last ids = inr n ∧
    slice_from row n = inr span ∧
    decode L p span w1 = (inr text, w2) ∧
    g_processor (globals s') = Some p ∧
    g_model (globals s') = Some m ∧
    g_inputs (globals s') = Some inputs ∧
    g_outputs (globals s') = Some outputs ∧
    g_pipe (globals s') = g_pipe (globals s) ∧
    world s' = w2 ∧
    stdout s' = stdout s ++ [text].
Proof.
  intros H. unfold_direct_api. invert_run.
  destruct mode; simpl_state;
    repeat eexists; try eassumption; reflexivity.
Qed.

End DirectApi.

(** C1.  When the direct-API workflow returns, the one line it printed is
    the text [decode] gave for [outputs[0][n:]], where [n] is the last
    dimension of [inputs["input_ids"]]: for a row of tokens, the slice is the
    row without its first [n] positions, so no token at a position of the
    input span reaches [decode]. *)
Theorem direct_api_prints_only_new_tokens (L : Library) mode (s s' : State L) :
  direct_api L mode s = (inr (), s') →
  ∃ p outputs inputs ids n row span text w w',
    g_processor (globals s') = Some p ∧
    g_outputs (globals s') = Some outputs ∧
    g_inputs (globals s') = Some inputs ∧
    getitem inputs "input_ids" = inr ids ∧
    shape_last ids = inr n ∧
    index outputs 0 = inr row ∧
    slice_from row n = inr span ∧
    decode L p span w = (inr text, w') ∧
    stdout s' = stdout s ++ [text] ∧
    (∀ len, shape row = [len] →
       data span = drop n (data row) ∧
       data row = take n (data row) ++ data span ∧
       ∀ i, data span !! i = data row !! (n + i)%nat).
Proof.
  intros H. apply direct_api_returns in H.
  destruct H as (p & m & inputs & kwargs & outputs & row & ids & n & span &
                 text & w0 & w1 & w2 & Hkw & Hgen & Hrow & Hids & Hn & Hspan &
                 Hdec & Hp & Hm & Hin & Hout & Hpipe & Hw & Hprinted).
  exists p, outputs, inputs, ids, n, row, span, text, w1, w2.
  repeat (split; [assumption|]).
  intros len Hshape.
  destruct (index_inr _ _ _ Hrow) as (d & _ & _ & _ & Hlen).
  rewrite Hshape, numel_row in Hlen.
  destruct (slice_from_row _ _ _ _ Hshape Hlen Hspan) as [_ ->].
  split; [done|]. apply drop_positions.
Qed.

Lemma direct_api_prints_only_new_tokens_witness :
  direct_api Reference.steady RunFile (@fresh Reference.steady 0%nat)
    = (inr (), (direct_api Reference.steady RunFile (@fresh Reference.steady 0%nat)).2)
  ∧ ∃ p outputs inputs ids n row span text w w',
    g_processor (globals (direct_api Reference.steady RunFile (@fresh Reference.steady 0%nat)).2) = Some p ∧
    g_outputs (globals (direct_api Reference.steady RunFile (@fresh Reference.steady 0%nat)).2) = Some outputs ∧
    g_inputs (globals (direct_api Reference.steady RunFile (@fresh Reference.steady 0%nat)).2) = Some inputs ∧
    getitem inputs "input_ids" = inr ids ∧
    shape_last ids = inr n ∧
    index outputs 0 = inr row ∧
    slice_from row n = inr span ∧
    decode Reference.steady p span w = (inr text, w') ∧
    stdout (direct_api Reference.steady RunFile (@fresh Reference.steady 0%nat)).2 = stdout (@fresh Reference.steady 0%nat) ++ [text] ∧
    (∀ len, shape row = [len] →
       data span = drop n (data row) ∧
       data row = take n (data row) ++ data span ∧
       ∀ i, data span !! i = data row !! (n + i)%nat).
Proof.
  split; [by apply returns_as_pair|].
  apply (direct_api_prints_only_new_tokens Reference.steady RunFile).
  by apply returns_as_pair.
Defined.





(** ** Running statements forward *)

Section Forward.

Context {L : Library}.

Lemma run_load {A} name (field : Globals L → option A) s a :
  field (globals s) = Some a → load name field s = (inr a, s).
Proof. unfold load. by intros ->. Qed.

Lemma run_eval {A} (r : pyexn + A) (s : State L) a :
  r = inr a → eval r s = (inr a, s).
Proof. by intros ->. Qed.

Lemma run_call {A} name (c : LibCall (World L) (LibExn L) A) s r w :
  c (world s) = (r, w) →
  call name c s =
  match r with
  | inl e =>
      (inl (LibError e),
       mkState w (globals s) (stdout s) (trace s ++ [Called name (Some e)]))
  | inr a =>
      (inr a,
       mkState w (globals s) (stdout s) (trace s ++ [Called name None]))
  end.
Proof. unfold call. intros ->. by destruct r. Qed.

End Forward.


(** ** Exceptions: no statement of the script handles one *)

Section Propagation.

Context {L : Library}.












End Propagation.







(** A handler would break this: once the failure of a call is caught, the
    run goes on after a library call that raised. *)
Example try_except_does_not_propagate :
  ¬ propagates
      (try_except
         (call "AutoProcessor.from_pretrained"
            (AutoProcessor_from_pretrained Reference.offline
               "Qwen/Qwen3-VL-8B-Instruct"))
         (λ _, mret ())).
Proof.
  intros H. destruct (H (@fresh Reference.offline 0%nat)) as (new & Htrace & Hun).
  vm_compute in Htrace. subst new. simpl in Hun.
  apply Forall_cons in Hun as [Hhead _]. apply Hhead. by eexists _, _.
Qed.

(** ** The message list *)

Section Messages.

Context {L : Library}.

Lemma preserves_bind {A B} (P : State L → Prop) (m : M L A) (k : A → M L B) :
  preserves P m → (∀ a, preserves P (k a)) → preserves P (m ≫= k).
Proof.
  intros Hm Hk s Hs. rewrite run_bind. specialize (Hm s Hs).
  destruct (m s) as [[e|a] s1]; [done|]. by apply Hk.
Qed.

(** A statement that leaves the globals alone keeps any property of them. *)
Lemma preserves_globals {A} (P : State L → Prop) (m : M L A) :
  (∀ s s', globals s' = globals s → P s → P s') →
  (∀ s, globals (m s).2 = globals s) →
  preserves P m.
Proof. intros HP Hm s Hs. by apply (HP s). Qed.

Lemma messages_in_shape_globals (s s' : State L) :
  g_messages (globals s') = g_messages (globals s) →
  messages_in_shape s → messages_in_shape s'.
Proof. unfold messages_in_shape. by intros ->. Qed.

Lemma keeps_messages_call {A} name (c : LibCall (World L) (LibExn L) A) :
  preserves messages_in_shape (call name c).
Proof.
  intros s. apply messages_in_shape_globals.
  unfold call. by destruct (c (world s)) as [[e|a] w].
Qed.

Lemma keeps_messages_load {A} name (field : Globals L → option A) :
  preserves messages_in_shape (load name field).
Proof.
  intros s. apply messages_in_shape_globals.
  unfold load. by destruct (field (globals s)).
Qed.

Lemma keeps_messages_eval {A} (r : pyexn + A) :
  preserves messages_in_shape (eval (L:=L) r).
Proof. intros s. apply messages_in_shape_globals. by destruct r. Qed.

Lemma keeps_messages_print text :
  preserves messages_in_shape (print (L:=L) text).
Proof. intros s. by apply messages_in_shape_globals. Qed.

Lemma keeps_messages_expr_stmt mode (e : M L pyval) :
  preserves messages_in_shape e →
  preserves messages_in_shape (expr_stmt mode e).
Proof.
  intros He. apply (preserves_bind _ e); [done|].
  intros v s. apply messages_in_shape_globals. by destruct mode, v.
Qed.

(** Binding another global. *)
Lemma keeps_messages_store upd :
  (∀ g : Globals L, g_messages (upd g) = g_messages g) →
  preserves messages_in_shape (store upd).
Proof. intros Hupd s. apply messages_in_shape_globals. apply Hupd. Qed.

(** Binding [messages] itself, to a list of the right shape. *)
Lemma keeps_messages_set_messages v :
  user_turn_kinds v = Some [ImagePart; TextPart] →
  preserves messages_in_shape (store (L:=L) (set_messages v)).
Proof. intros Hv s _ v' [= <-]. exact Hv. Qed.

End Messages.

Ltac keeps_messages_by_statements :=
  repeat match goal with
  | |- preserves _ (_ ≫= _) => apply preserves_bind; [|intros ?]
  | |- preserves _ (call _ _) => apply keeps_messages_call
  | |- preserves _ (load _ _) => apply keeps_messages_load
  | |- preserves _ (store (set_messages _)) =>
      apply keeps_messages_set_messages; reflexivity
  | |- preserves _ (store _) => apply keeps_messages_store; reflexivity
  | |- preserves _ (eval _) => apply keeps_messages_eval
  | |- preserves _ (print _) => apply keeps_messages_print
  | |- preserves _ (expr_stmt _ _) => apply keeps_messages_expr_stmt
  end.

(** C4.  Each of the four parts of the file keeps the messages global
    unbound or bound to one turn of role "user" made of an image part, with
    its URL string, followed by a text part, with its string; and when a
    part returns, it has bound the global to such a list. *)
Theorem messages_are_one_user_turn (L : Library) mode :
  Forall (λ workflow : M L unit,
            preserves messages_in_shape workflow ∧
            ∀ s, (workflow s).1 = inr () →
              ∃ url question,
                g_messages (globals (workflow s).2) =
                Some (PList
                  [PDict [("role", PStr "user");
                          ("content", PList [
                             PDict [("type", PStr "image"); ("url", PStr url)];
                             PDict [("type", PStr "text"); ("text", PStr question)]])]]) ∧
                user_turn_kinds
                  (PList
                  [PDict [("role", PStr "user");
                          ("content", PList [
                             PDict [("type", PStr "image"); ("url", PStr url)];
                             PDict [("type", PStr "text"); ("text", PStr question)]])]])
                = Some [ImagePart; TextPart])
         (workflows L mode).
Proof.
  unfold workflows.
  repeat (apply Forall_cons_2; [split|]); try apply Forall_nil_2.
  all: try (unfold direct_api_again, pipeline_helper_again;
            unfold_direct_api; unfold_pipeline_helper;
            keeps_messages_by_statements; fail).
  all: intros s;
       match goal with
       | |- (?w ?x).1 = _ → _ => destruct (w x) as [r s'] eqn:Hrun
       end; simpl; intros ->.
  all: unfold direct_api_again, pipeline_helper_again in Hrun;
       unfold_direct_api; unfold_pipeline_helper; invert_run.
  all: destruct mode; repeat match goal with v : pyval |- _ => destruct v end;
       simpl_state; by eexists _, _.
Qed.

(** ** Two runs side by side *)

Section Lockstep.

Context {L : Library}.

Lemma lockstep_bind {A B} (m : M L A) (k : A → M L B) :
  lockstep m → (∀ a, lockstep (k a)) → lockstep (m ≫= k).
Proof.
  intros Hm Hk s1 s2 Hg. rewrite !run_bind.
  destruct (Hm s1 s2 Hg) as (out1 & Hr & Hg1 & Ho1 & Ho2).
  destruct (m s1) as [[e1|a1] t1], (m s2) as [[e2|a2] t2];
    simpl in *; try discriminate.
  - exists out1. by injection Hr as ->.
  - injection Hr as ->.
    destruct (Hk a2 t1 t2 Hg1) as (out2 & Hr' & Hg2 & Ho1' & Ho2').
    exists (out1 ++ out2). rewrite Ho1', Ho2', Ho1, Ho2, !app_assoc. done.
Qed.

(** A library call whose outcome does not depend on the state of the
    library. *)
Lemma lockstep_call {A} name (c : LibCall (World L) (LibExn L) A) :
  (∀ w1 w2, (c w1).1 = (c w2).1) → lockstep (call name c).
Proof.
  intros Hc s1 s2 Hg. exists []. unfold call.
  specialize (Hc (world s1) (world s2)).
  destruct (c (world s1)) as [[e1|a1] w1], (c (world s2)) as [[e2|a2] w2];
    simpl in *; try discriminate; injection Hc as ->;
    by rewrite !app_nil_r.
Qed.

Lemma lockstep_load {A} name (field : Globals L → option A) :
  lockstep (load name field).
Proof.
  intros s1 s2 Hg. exists []. unfold load. rewrite Hg.
  destruct (field (globals s2)); simpl; by rewrite !app_nil_r.
Qed.

Lemma lockstep_store upd : lockstep (store (L:=L) upd).
Proof.
  intros s1 s2 Hg. exists []. simpl. by rewrite Hg, !app_nil_r.
Qed.

Lemma lockstep_eval {A} (r : pyexn + A) : lockstep (eval (L:=L) r).
Proof. intros s1 s2 Hg. exists []. destruct r; simpl; by rewrite !app_nil_r. Qed.

Lemma lockstep_print text : lockstep (print (L:=L) text).
Proof. intros s1 s2 Hg. by exists [text]. Qed.

Lemma lockstep_expr_stmt mode (e : M L pyval) :
  lockstep e → lockstep (expr_stmt mode e).
Proof.
  intros He. apply (lockstep_bind e); [done|].
  intros v s1 s2 Hg. destruct mode, v; simpl;
    first [ exists []; by rewrite !app_nil_r | by eexists [_] ].
Qed.

End Lockstep.

Ltac lockstep_by_statements Hdet :=
  repeat match goal with
  | |- lockstep (_ ≫= _) => apply lockstep_bind; [|intros ?]
  | |- lockstep (call _ _) => apply lockstep_call; intros; apply Hdet
  | |- lockstep (load _ _) => apply lockstep_load
  | |- lockstep (store _) => apply lockstep_store
  | |- lockstep (eval _) => apply lockstep_eval
  | |- lockstep (print _) => apply lockstep_print
  | |- lockstep (expr_stmt _ _) => apply lockstep_expr_stmt
  end.

Lemma direct_api_lockstep (L : Library) mode :
  deterministic L → lockstep (direct_api L mode).
Proof.
  intros Hdet. unfold_direct_api. lockstep_by_statements Hdet.
Qed.

Lemma pipeline_helper_lockstep (L : Library) mode :
  deterministic L → lockstep (pipeline_helper L mode).
Proof.
  intros Hdet. unfold_pipeline_helper. lockstep_by_statements Hdet.
Qed.

(** The second half of the file is the first half again: the same
    statements with the same literals. *)
Lemma direct_api_again_same (L : Library) mode :
  direct_api_again L mode = direct_api L mode.
Proof. reflexivity. Qed.

Lemma pipeline_helper_again_same (L : Library) mode :
  pipeline_helper_again L mode = pipeline_helper L mode.
Proof. reflexivity. Qed.

Lemma script_lockstep (L : Library) mode :
  deterministic L → lockstep (script L mode).
Proof.
  intros Hdet. unfold script.
  rewrite direct_api_again_same, pipeline_helper_again_same.
  repeat match goal with
  | |- lockstep (_ ≫= _) => apply lockstep_bind; [|intros ?]
  | |- lockstep (direct_api _ _) => by apply direct_api_lockstep
  | |- lockstep (pipeline_helper _ _) => by apply pipeline_helper_lockstep
  end.
Qed.

(** C5, as it holds.  With a library whose outcomes are functions of the
    arguments, two runs of the file or of any of its four parts, each from a
    fresh interpreter, end with the same outcome and the same output,
    whatever the state of the library at the start of each. *)
Theorem same_output_when_library_is_deterministic (L : Library) mode :
  deterministic L →
  Forall (λ run : M L unit,
            ∀ w1 w2,
              (run (fresh w1)).1 = (run (fresh w2)).1 ∧
              stdout (run (fresh w1)).2 = stdout (run (fresh w2)).2)
         (script L mode :: workflows L mode).
Proof.
  intros Hdet.
  assert (∀ run : M L unit, lockstep run →
            ∀ w1 w2,
              (run (fresh w1)).1 = (run (fresh w2)).1 ∧
              stdout (run (fresh w1)).2 = stdout (run (fresh w2)).2) as Hfresh.
  { intros run Hrun w1 w2.
    destruct (Hrun (fresh w1) (fresh w2) eq_refl) as (out & Hr & _ & Ho1 & Ho2).
    split; [done|]. by rewrite Ho1, Ho2. }
  unfold workflows.
  repeat (apply Forall_cons_2; [apply Hfresh|]); try apply Forall_nil_2.
  - by apply script_lockstep.
  - by apply direct_api_lockstep.
  - by apply pipeline_helper_lockstep.
  - rewrite direct_api_again_same. by apply direct_api_lockstep.
  - rewrite pipeline_helper_again_same. by apply pipeline_helper_lockstep.
Qed.

(** The reference library does not sample when its answer does not follow
    the generator. *)
Lemma reference_deterministic reachable (tokens : list Z) :
  deterministic (Reference.library reachable (λ _, tokens)).
Proof.
  split; intros; cbn -[Reference.sample lookup];
    unfold Reference.fetch, Reference.sample; repeat case_match; done.
Qed.

Lemma same_output_when_library_is_deterministic_witness :
  deterministic Reference.steady ∧
  Forall (λ run : M Reference.steady unit,
            ∀ w1 w2,
              (run (fresh w1)).1 = (run (fresh w2)).1 ∧
              stdout (run (fresh w1)).2 = stdout (run (fresh w2)).2)
         (script Reference.steady RunFile :: workflows Reference.steady RunFile).
Proof.
  split; [apply reference_deterministic|].
  apply (same_output_when_library_is_deterministic Reference.steady RunFile).
  apply reference_deterministic.
Defined.

(** C5, as stated, fails: with a library that samples, two runs of the
    direct-API workflow on the same checkpoint name and the same message list
    print different answers. *)
Lemma sampling_library_runs_differ :
  stdout (direct_api Reference.sampling RunFile (@fresh Reference.sampling 0%nat)).2
    = ["cat"] ∧
  stdout (direct_api Reference.sampling RunFile (@fresh Reference.sampling 1%nat)).2
    = ["dog"].
Proof. split; by vm_compute. Qed.

(** ** No data flows between the workflows through the globals *)

Section Together.

Context {L : Library}.










End Together.




(** ** Globals a workflow leaves alone *)

Section Untouched.

Context {L : Library}.

Variable F : Globals L → Prop.







End Untouched.




(** ** What the pipeline workflow writes *)

Lemma pipeline_helper_returns (L : Library) mode (s s' : State L) :
  pipeline_helper L mode s = (inr (), s') →
  ∃ pp msgs v w w',
    pipe_call L pp msgs w = (inr v, w') ∧
    g_pipe (globals s') = Some pp ∧
    g_messages (globals s') = Some msgs ∧
    world s' = w' ∧
    stdout s' = stdout (displayed mode v s).
Proof.
  intros H. unfold_pipeline_helper. invert_run.
  match goal with
  | H : pipe_call L ?pp ?msgs ?w = (inr ?v, ?w') |- _ =>
      exists pp, msgs, v, w, w'; repeat split; try done; by destruct mode, v
  end.
Qed.

Section Quiet.

Context {L : Library}.

Variable out : list string.

Lemma quiet_call {A} name (c : LibCall (World L) (LibExn L) A) :
  preserves (λ s, stdout s = out) (call name c).
Proof. intros s. unfold call. by destruct (c (world s)) as [[e|a] w]. Qed.

Lemma quiet_load {A} name (field : Globals L → option A) :
  preserves (λ s, stdout s = out) (load name field).
Proof. intros s. unfold load. by destruct (field (globals s)). Qed.

Lemma quiet_store upd : preserves (λ s, stdout s = out) (store (L:=L) upd).
Proof. by intros s. Qed.

(** Run as a file, an expression statement writes nothing that its
    expression does not write. *)
Lemma quiet_expr_stmt (e : M L pyval) :
  preserves (λ s, stdout s = out) e →
  preserves (λ s, stdout s = out) (expr_stmt RunFile e).
Proof. intros He. apply (preserves_bind _ e); [done|]. by intros v s. Qed.

End Quiet.

Ltac quiet_by_statements :=
  repeat match goal with
  | |- preserves _ (_ ≫= _) => apply preserves_bind; [|intros ?]
  | |- preserves _ (call _ _) => apply quiet_call
  | |- preserves _ (load _ _) => apply quiet_load
  | |- preserves _ (store _) => apply quiet_store
  | |- preserves _ (expr_stmt RunFile _) => apply quiet_expr_stmt
  end.

(** C2, as it holds.  Run as a file, the pipeline workflow writes nothing,
    however it ends: the value of [pipe(text=messages)] is dropped.  In
    interactive mode, when the workflow returns, the value the callable
    returned is written through [repr], unless it is [None]. *)
Theorem pipeline_answer_shown_in_interactive_mode_only (L : Library) :
  (∀ s, stdout (pipeline_helper L RunFile s).2 = stdout s) ∧
  (∀ s s', pipeline_helper L Interactive s = (inr (), s') →
     ∃ pp msgs v w w',
       pipe_call L pp msgs w = (inr v, w') ∧
       stdout s' = stdout s ++ match v with
                               | PNone => []
                               | _ => [repr L v]
                               end).
Proof.
  split.
  - intros s.
    assert (preserves (λ t : State L, stdout t = stdout s)
              (pipeline_helper L RunFile)) as H.
    { unfold_pipeline_helper. quiet_by_statements. }
    by apply H.
  - intros s s' H. apply pipeline_helper_returns in H.
    destruct H as (pp & msgs & v & w & w' & Hcall & _ & _ & _ & Hout).
    exists pp, msgs, v, w, w'. split; [done|]. rewrite Hout.
    destruct v; simpl; by rewrite ?app_nil_r.
Qed.

Lemma pipeline_answer_shown_in_interactive_mode_only_witness :
  let s := @fresh Reference.steady 0%nat in
  pipeline_helper Reference.steady Interactive s
    = (inr (), (pipeline_helper Reference.steady Interactive s).2) ∧
  stdout (pipeline_helper Reference.steady Interactive s).2 = ["'A bear'"] ∧
  ∃ pp msgs v w w',
    pipe_call Reference.steady pp msgs w = (inr v, w') ∧
    stdout (pipeline_helper Reference.steady Interactive s).2
      = stdout s ++ match v with
                    | PNone => []
                    | _ => [repr Reference.steady v]
                    end.
Proof.
  intros s. split; [by apply returns_as_pair|]. split; [by vm_compute|].
  apply (proj2 (pipeline_answer_shown_in_interactive_mode_only Reference.steady) s).
  by apply returns_as_pair.
Defined.

(** C2, as stated, fails: run as a file, the callable answers 'A bear', the
    workflow returns, and nothing has been written; of the whole file only
    the two [print] calls of the direct-API workflow reach standard
    output. *)
Lemma pipeline_answer_dropped_when_run_as_file :
  let s := @fresh Reference.steady 0%nat in
  ((import_pipeline Reference.steady;; make_pipe Reference.steady;;
    build_messages_for_pipe Reference.steady;; pipe_answer Reference.steady) s).1
    = inr (PStr "A bear") ∧
  (pipeline_helper Reference.steady RunFile s).1 = inr () ∧
  stdout (pipeline_helper Reference.steady RunFile s).2 = [] ∧
  stdout (script Reference.steady RunFile s).2 = ["A bear"; "A bear"].
Proof. repeat split; by vm_compute. Qed.

(** ** Empty answers *)



(** ** The reference library meets the contracts *)




Lemma reference_decodes_nothing_to_nothing reachable answer :
  decodes_nothing_to_nothing (Reference.library reachable answer).
Proof. intros p tokens w text w' [= <- _] ->. done. Qed.






(** ** The file runs one round twice *)














Lemma messages_are_one_user_turn_witness :
  let s := @fresh Reference.steady 0%nat in
  (pipeline_helper Reference.steady RunFile s).1 = inr () ∧
  Forall (λ workflow : M Reference.steady unit,
            preserves messages_in_shape workflow ∧
            ∀ s, (workflow s).1 = inr () →
              ∃ url question,
                g_messages (globals (workflow s).2) =
                Some (PList
                  [PDict [("role", PStr "user");
                          ("content", PList [
                             PDict [("type", PStr "image"); ("url", PStr url)];
                             PDict [("type", PStr "text"); ("text", PStr question)]])]]) ∧
                user_turn_kinds
                  (PList
                  [PDict [("role", PStr "user");
                          ("content", PList [
                             PDict [("type", PStr "image"); ("url", PStr url)];
                             PDict [("type", PStr "text"); ("text", PStr question)]])]])
                = Some [ImagePart; TextPart])
         (workflows Reference.steady RunFile).
Proof.
  intros s. split; [by vm_compute|].
  apply (messages_are_one_user_turn Reference.steady RunFile).
Defined.

(** * Further properties of the script *)

(** ** Line 24: which exceptions the subscript and the slice raise *)

Lemma slice_from_inr_iff (row : Tensor) (n : nat) :
  (∃ span, slice_from row n = inr span) ↔ shape row ≠ [].
Proof.
  unfold slice_from. destruct (shape row); split; try done.
  - by intros [span ?].
  - intros _. by eexists.
Qed.

(** X1.  The expression [outputs[0][inputs["input_ids"].shape[-1]:]] has a
    value exactly when [outputs] has a first dimension that is not empty and
    at least one more dimension, and [inputs] holds under "input_ids" a
    tensor that is not 0-dim.  Otherwise it raises [IndexError], or
    [KeyError] for the missing key, and the [KeyError] only once
    [outputs[0]] has been taken. *)
Theorem generated_span_defined_iff (outputs : Tensor) (inputs : gmap string Tensor) :
  ((∃ span, generated_span outputs inputs = inr span) ↔
   ∃ d d' rest ids,
     shape outputs = d :: d' :: rest ∧ (0 < d)%nat ∧
     inputs !! "input_ids" = Some ids ∧ shape ids ≠ []) ∧
  (∀ e, generated_span outputs inputs = inl e →
        e = IndexError ∨
        (e = KeyError "input_ids" ∧ inputs !! "input_ids" = None ∧
         ∃ row, index outputs 0 = inr row)).
Proof.
  unfold generated_span, getitem, shape_last. split; [split|].
  - intros [span H].
    destruct (index outputs 0) as [e|row] eqn:Hrow; [discriminate|].
    destruct (inputs !! "input_ids") as [ids|] eqn:Hids; [|discriminate].
    destruct (last (shape ids)) as [n|] eqn:Hn; [|discriminate].
    apply index_inr in Hrow as (d & Hshape & Hd & _).
    assert (shape row ≠ []) as Hne by (apply (slice_from_inr_iff row n); eauto).
    destruct (shape row) as [|d' rest] eqn:Hr; [done|].
    exists d, d', rest, ids. repeat split; try done.
    intros Hnil. by rewrite Hnil in Hn.
  - intros (d & d' & rest & ids & Hshape & Hd & Hids & Hne).
    rewrite (index_in_range outputs 0 d (d' :: rest) Hshape Hd), Hids.
    destruct (last (shape ids)) as [n|] eqn:Hn.
    + by eexists.
    + apply last_None in Hn. done.
  - intros e H.
    destruct (index outputs 0) as [e0|row] eqn:Hrow.
    { left. injection H as <-. unfold index in Hrow.
      destruct (shape outputs); [by injection Hrow as <-|].
      destruct (0 <? n)%nat; [discriminate|]. by injection Hrow as <-. }
    destruct (inputs !! "input_ids") as [ids|] eqn:Hids.
    + left. destruct (last (shape ids)).
      * unfold slice_from in H. destruct (shape row); [|discriminate].
        by injection H as <-.
      * by injection H as <-.
    + right. injection H as <-. eauto.
Qed.

(** ** Line 24: the slice for any start, and which sequence it reads *)

(** X2.  On a batch of generated sequences the slice never raises, whatever
    the length of the input: it holds the tokens of the first sequence from
    position [n] on, and it is empty when the sequence is no longer than the
    input (a start beyond the end is clamped, not an error). *)
Theorem generated_span_any_start (outputs : Tensor) (inputs : gmap string Tensor)
    (ids : Tensor) (batch len n : nat) :
  shape outputs = [batch; len] →
  (0 < batch)%nat →
  inputs !! "input_ids" = Some ids →
  shape_last ids = inr n →
  ∃ span,
    generated_span outputs inputs = inr span ∧
    shape span = [(len - n)%nat] ∧
    data span = drop n (take len (data outputs)) ∧
    ((len ≤ n)%nat → shape span = [0%nat] ∧ data span = []).
Proof.
  intros Hshape Hbatch Hids Hn.
  pose proof (index_in_range outputs 0 batch [len] Hshape Hbatch) as Hrow.
  rewrite numel_row in Hrow.
  change (drop (0 * len) (data outputs)) with (data outputs) in Hrow.
  set (row := mkTensor [len] (take len (data outputs))) in Hrow.
  assert (length (data row) ≤ len)%nat as Hlen.
  { subst row. cbn [data]. rewrite length_take. lia. }
  destruct (slice_from row n) as [e|span] eqn:Hspan; [discriminate|].
  destruct (slice_from_row row n len span eq_refl Hlen Hspan) as [Hs Hd].
  exists span. split; [|split; [done|split; [done|]]].
  - unfold generated_span, getitem. by rewrite Hrow, Hids, Hn.
  - intros Hle. split.
    + rewrite Hs. f_equal. lia.
    + rewrite Hd. apply drop_ge. lia.
Qed.

Lemma generated_span_any_start_witness :
  let outputs := mkTensor [1; 2]%nat [101; 102] in
  [1; 2]%nat = [1; 2]%nat ∧ (0 < 1)%nat ∧
  Reference.prompt !! "input_ids" = Some (mkTensor [1; 3]%nat [101; 102; 103]) ∧
  ∃ span,
    generated_span outputs Reference.prompt = inr span ∧
    shape span = [(2 - 3)%nat] ∧
    data span = drop 3 (take 2 (data outputs)) ∧
    ((2 ≤ 3)%nat → shape span = [0%nat] ∧ data span = []).
Proof.
  intros outputs. split; [done|]. split; [lia|]. split; [done|].
  apply (generated_span_any_start outputs Reference.prompt
           (mkTensor [1; 3]%nat [101; 102; 103]) 1 2 3); try done; lia.
Defined.

(** X3.  Only the first sequence of the batch reaches [decode]: two batches
    with the same first sequence, whatever their other sequences and however
    many, give the same span. *)
Theorem generated_span_reads_first_sequence
    (outputs outputs' : Tensor) (inputs : gmap string Tensor)
    (batch batch' : nat) (rest : list nat) :
  shape outputs = batch :: rest →
  shape outputs' = batch' :: rest →
  (0 < batch)%nat → (0 < batch')%nat →
  take (numel rest) (data outputs) = take (numel rest) (data outputs') →
  generated_span outputs inputs = generated_span outputs' inputs.
Proof.
  intros Hs Hs' Hb Hb' Hfirst. unfold generated_span.
  rewrite (index_in_range outputs 0 batch rest Hs Hb).
  rewrite (index_in_range outputs' 0 batch' rest Hs' Hb').
  rewrite !Nat.mul_0_l, !drop_0. by rewrite Hfirst.
Qed.

Lemma generated_span_reads_first_sequence_witness :
  let one := mkTensor [1; 4]%nat [101; 102; 103; 7] in
  let two := mkTensor [2; 4]%nat [101; 102; 103; 7; 101; 102; 103; 8] in
  generated_span one Reference.prompt = generated_span two Reference.prompt ∧
  generated_span two Reference.prompt = inr (mkTensor [1]%nat [7]).
Proof.
  intros one two. split; [|done].
  apply (generated_span_reads_first_sequence one two Reference.prompt 1 2 [4%nat]);
    try done; lia.
Defined.

(** ** Tensors stay well shaped *)

Lemma numel_cons (d : nat) (rest : list nat) :
  numel (d :: rest) = (d * numel rest)%nat.
Proof. reflexivity. Qed.

(** X4.  The subscript and the slice keep a tensor well shaped: the span
    taken from a well-shaped [outputs] holds exactly as many tokens as its
    shape says. *)
Theorem generated_span_well_shaped (outputs : Tensor) (inputs : gmap string Tensor)
    (span : Tensor) :
  well_shaped outputs →
  generated_span outputs inputs = inr span →
  well_shaped span.
Proof.
  unfold generated_span, well_shaped. intros Hwf H.
  destruct (index outputs 0) as [e|row] eqn:Hrow; [discriminate|].
  destruct (getitem inputs "input_ids") as [e|ids]; [discriminate|].
  destruct (shape_last ids) as [e|n]; [discriminate|].
  apply index_inr in Hrow as (d & Hshape & Hd & Hdata & _).
  assert (length (data row) = numel (shape row)) as Hrowlen.
  { rewrite Hdata, length_take, length_drop, Hwf, Hshape, numel_cons. nia. }
  unfold slice_from in H. destruct (shape row) as [|d' rest] eqn:Hr; [discriminate|].
  injection H as <-. cbn [shape data].
  rewrite length_drop, Hrowlen, !numel_cons. nia.
Qed.

Lemma generated_span_well_shaped_witness :
  let two := mkTensor [2; 4]%nat [101; 102; 103; 7; 101; 102; 103; 8] in
  well_shaped two ∧
  generated_span two Reference.prompt = inr (mkTensor [1]%nat [7]) ∧
  well_shaped (mkTensor [1]%nat [7]).
Proof.
  intros two. split; [done|]. split; [done|].
  by apply (generated_span_well_shaped two Reference.prompt).
Defined.

(** ** Line 23: the keyword arguments of [generate] *)

(** X5.  Line 23 with [model] and [inputs] bound.  When [inputs] already
    holds a tensor named "max_new_tokens", the call raises [TypeError]
    before the library is entered: nothing is called and nothing changes.
    Otherwise [generate] receives the bound 40 and every tensor of [inputs]
    under its own name, and nothing else; the statement ends as [generate]
    ends, binding [outputs] when it returns. *)
Theorem run_generate_keywords (L : Library) (s : State L) m
    (inputs : gmap string Tensor) :
  g_model (globals s) = Some m →
  g_inputs (globals s) = Some inputs →
  (is_Some (inputs !! "max_new_tokens") →
   ∃ why, run_generate L s = (inl (PyError (TypeError why)), s)) ∧
  (inputs !! "max_new_tokens" = None →
   ∃ kwargs,
     dom kwargs = dom inputs ∪ {["max_new_tokens"]} ∧
     kwargs !! "max_new_tokens" = Some (KInt 40) ∧
     (∀ name t, inputs !! name = Some t → kwargs !! name = Some (KTensor t)) ∧
     run_generate L s =
     match generate L m kwargs (world s) with
     | (inl e, w) =>
         (inl (LibError e),
          mkState w (globals s) (stdout s)
                  (trace s ++ [Called "model.generate" (Some e)]))
     | (inr out, w) =>
         (inr (),
          mkState w (set_outputs out (globals s)) (stdout s)
                  (trace s ++ [Called "model.generate" None]))
     end).
Proof.
  intros Hm Hin. split.
  - intros [t Ht]. eexists.
    unfold run_generate, mbind, M_bind, bind, load, keywords.
    rewrite Hm, Hin, Ht. reflexivity.
  - intros Hfree.
    exists (<["max_new_tokens" := KInt 40]> (KTensor <$> inputs)).
    split; [|split; [|split]].
    + rewrite dom_insert_L, dom_fmap_L. apply (comm_L (∪)).
    + apply lookup_insert_eq.
    + intros name t Ht.
      assert (name ≠ "max_new_tokens") as Hne by congruence.
      rewrite lookup_insert_ne by done. by rewrite lookup_fmap, Ht.
    + unfold run_generate, mbind, M_bind, bind, load, keywords, call, store.
      rewrite Hm, Hin, Hfree. cbv beta iota delta [eval ret raise].
      by destruct (generate L m _ (world s)) as [[e|out] w].
Qed.

Lemma run_generate_keywords_witness :
  let s : State Reference.steady :=
    @mkState Reference.steady 0%nat
      (@mkGlobals Reference.steady (Some ()) (Some ()) None
                  (Some (<["max_new_tokens" := mkTensor [] [5]]> Reference.prompt))
                  None None)
      [] [] in
  is_Some ((<["max_new_tokens" := mkTensor [] [5]]> Reference.prompt)
             !! "max_new_tokens") ∧
  ∃ why, run_generate Reference.steady s = (inl (PyError (TypeError why)), s).
Proof.
  intros s. split; [by eexists|].
  apply (proj1 (run_generate_keywords Reference.steady s ()
                  (<["max_new_tokens" := mkTensor [] [5]]> Reference.prompt)
                  eq_refl eq_refl)).
  by eexists.
Defined.

(** ** Names are bound before they are read *)

Section Names.

Context {L : Library}.













End Names.





(** ** What the direct-API workflow writes *)

Section Output.

Context {L : Library}.

Lemma quiet_bind {A B} (m : M L A) (f : A → M L B) :
  quiet m → (∀ a, quiet (f a)) → quiet (m ≫= f).
Proof.
  intros Hm Hf s. rewrite run_bind. specialize (Hm s).
  destruct (m s) as [[e|a] s1]; [done|]. simpl in Hm. by rewrite Hf.
Qed.

Lemma call_quiet {A} name (c : LibCall (World L) (LibExn L) A) :
  quiet (call name c).
Proof. intros s. unfold call. by destruct (c (world s)) as [[e|a] w]. Qed.

Lemma load_quiet {A} name (field : Globals L → option A) :
  quiet (load name field).
Proof. intros s. unfold load. by destruct (field (globals s)). Qed.

Lemma store_quiet upd : quiet (store (L:=L) upd).
Proof. by intros s. Qed.








End Output.



(** ** Line 24 when its own expression raises *)

(** X9.  Line 24 with [processor], [outputs] and [inputs] bound: when the
    subscript or the slice raises, that exception is the outcome of the
    statement and the state is as it was; [decode] has not been called and
    nothing has been written. *)
Theorem print_answer_raises_before_decode (L : Library) mode (s : State L)
    p outputs inputs e :
  g_processor (globals s) = Some p →
  g_outputs (globals s) = Some outputs →
  g_inputs (globals s) = Some inputs →
  generated_span outputs inputs = inl e →
  print_answer L mode s = (inl (PyError e), s).
Proof.
  intros Hp Hout Hin He.
  unfold print_answer, decoded_answer, expr_stmt, mbind, M_bind, bind, load.
  rewrite Hp, Hout. unfold generated_span in He.
  destruct (index outputs 0) as [e0|row]; cbv beta iota delta [eval ret raise].
  { by injection He as <-. }
  rewrite Hin.
  destruct (getitem inputs "input_ids") as [e0|ids];
    cbv beta iota delta [eval ret raise].
  { by injection He as <-. }
  destruct (shape_last ids) as [e0|n]; cbv beta iota delta [eval ret raise].
  { by injection He as <-. }
  by rewrite He.
Qed.

Lemma print_answer_raises_before_decode_witness :
  let s : State Reference.steady :=
    @mkState Reference.steady 0%nat
      (@mkGlobals Reference.steady (Some ()) (Some ()) None
                  (Some (delete "input_ids" Reference.prompt))
                  (Some (mkTensor [1; 4]%nat [101; 102; 103; 7])) None)
      ["earlier"] [] in
  generated_span (mkTensor [1; 4]%nat [101; 102; 103; 7])
                 (delete "input_ids" Reference.prompt)
    = inl (KeyError "input_ids") ∧
  print_answer Reference.steady RunFile s
    = (inl (PyError (KeyError "input_ids")), s).
Proof.
  intros s. split; [done|].
  by apply (print_answer_raises_before_decode Reference.steady RunFile s ()
              (mkTensor [1; 4]%nat [101; 102; 103; 7])
              (delete "input_ids" Reference.prompt)).
Defined.

(** ** What the file writes when it is run as a script *)

Lemma expr_stmt_run_file_quiet {L} (e : M L pyval) :
  quiet e → quiet (expr_stmt RunFile e).
Proof. intros He. apply (quiet_bind e); [done|]. by intros v s. Qed.

Lemma pipeline_helper_run_file_quiet (L : Library) :
  quiet (pipeline_helper L RunFile).
Proof.
  unfold_pipeline_helper.
  repeat match goal with
  | |- quiet (_ ≫= _) => apply quiet_bind; [|intros ?]
  | |- quiet (call _ _) => apply call_quiet
  | |- quiet (load _ _) => apply load_quiet
  | |- quiet (store _) => apply store_quiet
  | |- quiet (expr_stmt RunFile _) => apply expr_stmt_run_file_quiet
  end.
Qed.

(** X10.  When the file, run as a script, returns, standard output has grown
    by exactly two lines, the texts the two [print] statements were given;
    the two pipeline calls have added nothing. *)
Theorem script_run_file_writes_two_lines (L : Library) (s s' : State L) :
  script L RunFile s = (inr (), s') →
  ∃ first second w1 w1' w2 w2' p1 p2 span1 span2,
    decode L p1 span1 w1 = (inr first, w1') ∧
    decode L p2 span2 w2 = (inr second, w2') ∧
    stdout s' = stdout s ++ [first; second].
Proof.
  intros H. unfold script in H.
  rewrite direct_api_again_same, pipeline_helper_again_same in H.
  apply bind_returns in H as ([] & s1 & H1 & H).
  apply bind_returns in H as ([] & s2 & H2 & H).
  apply bind_returns in H as ([] & s3 & H3 & H4).
  apply direct_api_returns in H1
    as (p1 & _ & _ & _ & _ & _ & _ & _ & span1 & first & _ & w1 & w1' &
        _ & _ & _ & _ & _ & _ & Hdec1 & _ & _ & _ & _ & _ & _ & Ho1).
  apply direct_api_returns in H3
    as (p2 & _ & _ & _ & _ & _ & _ & _ & span2 & second & _ & w2 & w2' &
        _ & _ & _ & _ & _ & _ & Hdec2 & _ & _ & _ & _ & _ & _ & Ho3).
  pose proof (pipeline_helper_run_file_quiet L s1) as Ho2.
  pose proof (pipeline_helper_run_file_quiet L s3) as Ho4.
  rewrite H2 in Ho2. rewrite H4 in Ho4. simpl in Ho2, Ho4.
  exists first, second, w1, w1', w2, w2', p1, p2, span1, span2.
  split; [done|]. split; [done|].
  by rewrite Ho4, Ho3, Ho2, Ho1, <- app_assoc.
Qed.

Lemma script_run_file_writes_two_lines_witness :
  let s := @fresh Reference.steady 0%nat in
  let s' := (script Reference.steady RunFile s).2 in
  script Reference.steady RunFile s = (inr (), s') ∧
  stdout s' = ["A bear"; "A bear"] ∧
  ∃ first second w1 w1' w2 w2' p1 p2 span1 span2,
    decode Reference.steady p1 span1 w1 = (inr first, w1') ∧
    decode Reference.steady p2 span2 w2 = (inr second, w2') ∧
    stdout s' = stdout s ++ [first; second].
Proof.
  intros s s'.
  assert (script Reference.steady RunFile s = (inr (), s')) as Hrun.
  { apply (returns_as_pair (script Reference.steady RunFile) s). by vm_compute. }
  split; [exact Hrun|]. split; [by vm_compute|].
  by apply (script_run_file_writes_two_lines Reference.steady s s').
Defined.
